(** * kamaji, internal/resources/kubeadm_phases.go

    A shallow embedding of the kubeadm phase resource: phase identities and
    their display names, the checksum-gated status tracking on the owning
    TenantControlPlane, the dispatch of a phase to its kubeadm routine and
    the enrichment of the bootstrap token.

    Go values are modelled as follows.
    - [int] is [Z]; no arithmetic is done on phase identities, so no
      wrap-around is involved.
    - a function with results [(T, error)] returns a pair whose second
      component is [option error] ([None] is the nil error).
    - a run-time panic is an explicit [Panics] outcome.
    - objects reached through pointers are updated by state passing: the
      in-memory TenantControlPlane is an in/out value, the
      [*BootstrapTokenString] cells live in an explicit heap. *)

From Stdlib Require Import ZArith List Lia Ascii String.
From stdpp Require Import base decidable option list strings pretty.

Open Scope string_scope.
Open Scope Z_scope.

(** ** The Go runtime: errors, panics, array indexing, [fmt] *)

(** A value of Go's [error] interface, identified by its message. *)
Inductive error : Type :=
| errorString (msg : string).

Definition error_Error (e : error) : string :=
  match e with errorString msg => msg end.

(** The run-time errors the code can raise. [boundsError x y]: index [x]
    used on an array or slice of length [y]. *)
Inductive runtime_error : Type :=
| boundsError (x : Z) (y : Z)
| nilDereference.

Inductive outcome (A : Type) : Type :=
| Returns (a : A)
| Panics (e : runtime_error).
Arguments Returns {A} a.
Arguments Panics {A} e.

(** The text of a run-time error, as [runtime.Error.Error()] gives it: a
    negative index is reported without the length. *)
Definition runtime_error_Error (e : runtime_error) : string :=
  match e with
  | boundsError x y =>
      "runtime error: index out of range [" +:+ pretty x +:+
      (if decide (x < 0) then "]" else "] with length " +:+ pretty y)
  | nilDereference =>
      "runtime error: invalid memory address or nil pointer dereference"
  end.

(** [a[i]] on an array or slice: bounds-checked. *)
Definition index_array {A : Type} (a : list A) (i : Z) : outcome A :=
  match (if decide (0 ≤ i) then a !! Z.to_nat i else None) with
  | Some v => Returns v
  | None => Panics (boundsError i (Z.of_nat (length a)))
  end.

(** ** Phase identities *)

Definition kubeadmPhase : Type := Z.

Definition PhaseUploadConfigKubeadm : kubeadmPhase := 0.
Definition PhaseUploadConfigKubelet : kubeadmPhase := 1.
Definition PhaseBootstrapToken : kubeadmPhase := 2.

(** The values the [const] block declares. *)
Definition declared_phases : list kubeadmPhase :=
  [PhaseUploadConfigKubeadm; PhaseUploadConfigKubelet; PhaseBootstrapToken].

(** The array literal indexed by [String]. *)
Definition display_names : list string :=
  ["PhaseUploadConfigKubeadm"; "PhaseUploadConfigKubelet"; "PhaseAddonCoreDNS";
   "PhaseAddonKubeProxy"; "PhaseBootstrapToken"].

Definition kubeadmPhase_String (d : kubeadmPhase) : outcome string :=
  index_array display_names d.

(** What [fmt] prints for a phase under the verb [%s], as [fmt.Errorf] does
    in this file. The phase is a [Stringer], so [fmt] calls [String]; a
    panic inside that call is recovered by [fmt], which prints
    [%!s(PANIC=String method: ] then the panic value and a closing
    parenthesis in place of the value. *)
Definition fmt_verb_s (d : kubeadmPhase) : string :=
  match kubeadmPhase_String d with
  | Returns s => s
  | Panics e => "%!s(PANIC=String method: " +:+ runtime_error_Error e +:+ ")"
  end.

(** ** The owning resource's status block (package api/v1alpha1) *)

Module kamajiv1alpha1.

(** Modelled from the spec: the api/v1alpha1 package is not among the
    sources. A persisted phase status "holds the last successfully-applied
    Fingerprint"; the source reads it as the field [Checksum]. *)
Record KubeadmPhaseStatus : Type := { Checksum : string }.

(** Modelled from the spec: "exactly one PersistedPhaseStatus exists per
    PhaseIdentity per owning resource"; the field names are the ones
    [GetStatus] takes the address of. *)
Record KubeadmPhasesStatus : Type := {
  UploadConfigKubeadm : KubeadmPhaseStatus;
  UploadConfigKubelet : KubeadmPhaseStatus;
  BootstrapToken : KubeadmPhaseStatus
}.

Record TenantControlPlaneStatus : Type := { KubeadmPhase : KubeadmPhasesStatus }.

Record TenantControlPlane : Type := { Status : TenantControlPlaneStatus }.

(** A pointer into the status block of a TenantControlPlane. *)
Inductive StatusAddr : Type :=
| addr_UploadConfigKubeadm
| addr_UploadConfigKubelet
| addr_BootstrapToken.

Definition load (a : StatusAddr) (tcp : TenantControlPlane) : KubeadmPhaseStatus :=
  match a with
  | addr_UploadConfigKubeadm => UploadConfigKubeadm (KubeadmPhase (Status tcp))
  | addr_UploadConfigKubelet => UploadConfigKubelet (KubeadmPhase (Status tcp))
  | addr_BootstrapToken => BootstrapToken (KubeadmPhase (Status tcp))
  end.

Definition store (a : StatusAddr) (v : KubeadmPhaseStatus)
    (tcp : TenantControlPlane) : TenantControlPlane :=
  let k := KubeadmPhase (Status tcp) in
  let k' :=
    match a with
    | addr_UploadConfigKubeadm =>
        {| UploadConfigKubeadm := v;
           UploadConfigKubelet := UploadConfigKubelet k;
           BootstrapToken := BootstrapToken k |}
    | addr_UploadConfigKubelet =>
        {| UploadConfigKubeadm := UploadConfigKubeadm k;
           UploadConfigKubelet := v;
           BootstrapToken := BootstrapToken k |}
    | addr_BootstrapToken =>
        {| UploadConfigKubeadm := UploadConfigKubeadm k;
           UploadConfigKubelet := UploadConfigKubelet k;
           BootstrapToken := v |}
    end in
  {| Status := {| KubeadmPhase := k' |} |}.

(** A value of the interface [KubeadmConfigChecksumDependant]: a pointer
    to a [KubeadmPhaseStatus] of the status block, or a value of some
    other implementing type, which lives outside the block. *)
Inductive KubeadmConfigChecksumDependant : Type :=
| ptr_KubeadmPhaseStatus (a : StatusAddr)
| other_dependant.

(** The type assertion of [i] to a pointer to [KubeadmPhaseStatus]. *)
Definition assert_KubeadmPhaseStatus (i : KubeadmConfigChecksumDependant)
    : option StatusAddr :=
  match i with
  | ptr_KubeadmPhaseStatus a => Some a
  | other_dependant => None
  end.

(** Modelled from the spec: the method [SetChecksum] is declared in
    api/v1alpha1; it "overwrites its stored fingerprint unconditionally"
    and "only mutates the in-memory representation". *)
Definition SetChecksum (i : KubeadmConfigChecksumDependant) (checksum : string)
    (tcp : TenantControlPlane) : TenantControlPlane :=
  match i with
  | ptr_KubeadmPhaseStatus a => store a {| Checksum := checksum |} tcp
  | other_dependant => tcp
  end.

End kamajiv1alpha1.

Import kamajiv1alpha1.

(** ** The phase resource *)

(** The handle of the API client. *)
Inductive client_Client : Type :=
| ClientHandle (id : nat).

Record KubeadmPhase : Type := {
  Client : client_Client;
  Name : string;
  Phase : kubeadmPhase;
  checksum : string
}.

Definition GetStatus (r : KubeadmPhase) (tenantControlPlane : TenantControlPlane)
    : option KubeadmConfigChecksumDependant * option error :=
  if decide (Phase r = PhaseUploadConfigKubeadm) then
    (Some (ptr_KubeadmPhaseStatus addr_UploadConfigKubeadm), None)
  else if decide (Phase r = PhaseUploadConfigKubelet) then
    (Some (ptr_KubeadmPhaseStatus addr_UploadConfigKubelet), None)
  else if decide (Phase r = PhaseBootstrapToken) then
    (Some (ptr_KubeadmPhaseStatus addr_BootstrapToken), None)
  else
    (None, Some (errorString (fmt_verb_s (Phase r) +:+ " is not a right kubeadm phase"))).

Definition isStatusEqual (r : KubeadmPhase) (tenantControlPlane : TenantControlPlane) : bool :=
  match GetStatus r tenantControlPlane with
  | (_, Some _) => true
  | (None, None) => false
  | (Some i, None) =>
      match assert_KubeadmPhaseStatus i with
      | None => false
      | Some status =>
          bool_decide (Checksum (load status tenantControlPlane) = checksum r)
      end
  end.

Definition SetKubeadmConfigChecksum (r : KubeadmPhase) (checksum : string) : KubeadmPhase :=
  {| Client := Client r; Name := Name r; Phase := Phase r; checksum := checksum |}.

Definition ShouldStatusBeUpdated (r : KubeadmPhase) (tenantControlPlane : TenantControlPlane) : bool :=
  negb (isStatusEqual r tenantControlPlane).

Definition ShouldCleanup (r : KubeadmPhase) (tenantControlPlane : TenantControlPlane) : bool :=
  false.

Definition CleanUp (r : KubeadmPhase) (tenantControlPlane : TenantControlPlane)
    : bool * option error :=
  (false, None).

Definition Define (r : KubeadmPhase) (tenantControlPlane : TenantControlPlane)
    : option error :=
  None.

Definition GetClient (r : KubeadmPhase) : client_Client := Client r.

Definition GetTmpDirectory (r : KubeadmPhase) : string := "".

Definition GetName (r : KubeadmPhase) : string := Name r.

(** One call of [logger.Error]: the error, the message and the key/value
    pairs the logger was built with. *)
Record LogEntry : Type := {
  log_err : error;
  log_msg : string;
  log_keysAndValues : list (string * string)
}.

(** The TenantControlPlane is passed by pointer: the result carries its
    content after the call, the log lines written and the returned error.
    The arguments of [log.FromContext] are evaluated first, so [String] is
    called on the phase, outside of [fmt], before anything else. *)
Definition UpdateTenantControlPlaneStatus (r : KubeadmPhase)
    (tenantControlPlane : TenantControlPlane)
    : outcome (TenantControlPlane * list LogEntry * option error) :=
  match kubeadmPhase_String (Phase r) with
  | Panics e => Panics e
  | Returns phase_name =>
      let logger := [("resource", GetName r); ("phase", phase_name)] in
      match GetStatus r tenantControlPlane with
      | (_, Some err) =>
          Returns (tenantControlPlane,
                   [{| log_err := err;
                       log_msg := "unable to update the status";
                       log_keysAndValues := logger |}],
                   Some err)
      | (None, None) => Panics nilDereference
      | (Some status, None) =>
          Returns (SetChecksum status (checksum r) tenantControlPlane, [], None)
      end
  end.

(** ** Bootstrap tokens (package bootstraptoken/v1 of kubeadm) *)

Module bootstraptokenv1.

Record BootstrapTokenString : Type := { ID : string; Secret : string }.

(** A non-nil pointer to a [BootstrapTokenString]. *)
Definition loc : Type := nat.

Record BootstrapToken : Type := {
  Token : option loc;
  Description : string;
  TTL : option Z;
  Expires : option Z;
  Usages : list string;
  Groups : list string
}.

(** The zero value of the struct, what [var bootstrapToken] declares. *)
Definition zero_BootstrapToken : BootstrapToken :=
  {| Token := None; Description := ""; TTL := None; Expires := None;
     Usages := []; Groups := [] |}.

Definition set_Token (t : option loc) (b : BootstrapToken) : BootstrapToken :=
  {| Token := t; Description := Description b; TTL := TTL b;
     Expires := Expires b; Usages := Usages b; Groups := Groups b |}.

Definition set_ID (id : string) (t : BootstrapTokenString) : BootstrapTokenString :=
  {| ID := id; Secret := Secret t |}.

End bootstraptokenv1.

Import bootstraptokenv1.

(** The handle of the clientset of the tenant cluster. *)
Inductive clientset_Interface : Type :=
| ClientsetHandle (id : nat).

(** The configuration handed to the kubeadm routines: [Configuration] of
    package internal/kubeadm, which embeds kubeadm's [InitConfiguration].
    Only the fields this file reads are modelled. *)
Module kubeadmapi.

Record InitConfiguration : Type := { BootstrapTokens : list BootstrapToken }.

End kubeadmapi.

Module kubeadm.

Record Configuration : Type := { InitConfiguration : kubeadmapi.InitConfiguration }.

(** The content of a configuration after its token slice was written to. *)
Definition set_BootstrapTokens (l : list BootstrapToken) (config : Configuration)
    : Configuration :=
  {| InitConfiguration := {| kubeadmapi.BootstrapTokens := l |} |}.

End kubeadm.

Import kubeadmapi kubeadm.

Section Phases.

(** Everything outside of this file that the routines called from it may
    read or change: the random source, the tenant cluster. *)
Variable World : Type.

Record State : Type := {
  heap : list BootstrapTokenString;
  world : World
}.

(** Computations that read and update the state and may panic. *)
Definition M (A : Type) : Type := State → outcome (A * State).

#[global] Instance M_ret : MRet M := λ A a s, Returns (a, s).

#[global] Instance M_bind : MBind M := λ A B f m s,
  match m s with
  | Returns (a, s') => f a s'
  | Panics e => Panics e
  end.

Definition lift {A : Type} (o : outcome A) : M A := λ s,
  match o with
  | Returns a => Returns (a, s)
  | Panics e => Panics e
  end.

(** [&bootstraptokenv1.BootstrapTokenString{}]: a fresh cell holding the
    zero value. *)
Definition new_BootstrapTokenString : M loc := λ s,
  Returns (length (heap s),
           {| heap := heap s ++ [{| ID := ""; Secret := "" |}]; world := world s |}).

(** Reading through a pointer. A nil pointer panics; a pointer to a cell
    that was never allocated does not exist in Go and is treated alike. *)
Definition deref (p : option loc) : M BootstrapTokenString := λ s,
  match p with
  | Some l =>
      match heap s !! l with
      | Some t => Returns (t, s)
      | None => Panics nilDereference
      end
  | None => Panics nilDereference
  end.

(** [p.ID = id]. *)
Definition assign_ID (p : option loc) (id : string) : M unit := λ s,
  match p with
  | Some l =>
      match heap s !! l with
      | Some t =>
          Returns (tt, {| heap := <[l := set_ID id t]> (heap s); world := world s |})
      | None => Panics nilDereference
      end
  | None => Panics nilDereference
  end.

(** [s[i] = v] on a slice: bounds-checked, the backing array is shared
    with the caller, who sees the new content. *)
Definition assign_index {A : Type} (a : list A) (i : Z) (v : A) : M (list A) :=
  if decide (0 ≤ i < Z.of_nat (length a)) then mret (<[Z.to_nat i := v]> a)
  else lift (Panics (boundsError i (Z.of_nat (length a)))).

(** [utils.RandomString], of package internal/resources/utils. *)
Variable utils_RandomString : Z → World → string * World.

Definition RandomString (n : Z) : M string := λ s,
  let '(str, w) := utils_RandomString n (world s) in
  Returns (str, {| heap := heap s; world := w |}).

(** The identifier [enrichBootstrapToken] generates in a world [w], and
    the world after the two draws. *)
Definition generated_ID (w : World) : string :=
  let '(a, w1) := utils_RandomString 6 w in
  let '(b, _) := utils_RandomString 16 w1 in
  a +:+ "." +:+ b.

Definition world_after (w : World) : World :=
  let '(_, w1) := utils_RandomString 6 w in
  let '(_, w2) := utils_RandomString 16 w1 in
  w2.

(** The struct is passed by pointer: the result is its content after the
    call. *)
Definition enrichBootstrapToken (bootstrapToken : BootstrapToken) : M BootstrapToken :=
  bootstrapToken ←
    match Token bootstrapToken with
    | None => p ← new_BootstrapTokenString; mret (set_Token (Some p) bootstrapToken)
    | Some _ => mret bootstrapToken
    end;
  token ← deref (Token bootstrapToken);
  if decide (ID token = "") then
    a ← RandomString 6;
    b ← RandomString 16;
    assign_ID (Token bootstrapToken) (a +:+ "." +:+ b);;
    mret bootstrapToken
  else mret bootstrapToken.

(** The result is the content of the slice after the call. *)
Definition bootstrapTokensEnrichment (bootstrapTokens : list BootstrapToken)
    : M (list BootstrapToken) :=
  bootstrapToken ←
    (if decide (0 < length bootstrapTokens)%nat
     then lift (index_array bootstrapTokens 0)
     else mret zero_BootstrapToken);
  bootstrapToken ← enrichBootstrapToken bootstrapToken;
  assign_index bootstrapTokens 0 bootstrapToken.

(** The type of the functions [GetKubeadmFunction] resolves to. The
    configuration is passed by pointer: the result carries its content
    after the call, then the byte payload ([None] is the nil slice) and
    the error. *)
Definition kubeadmFunction : Type :=
  clientset_Interface → Configuration →
  M (Configuration * (option (list Byte.byte) * option error)).

(** The routines of package internal/kubeadm. *)
Variable kubeadm_UploadKubeadmConfig : kubeadmFunction.
Variable kubeadm_UploadKubeletConfig : kubeadmFunction.
Variable kubeadm_BootstrapToken :
  clientset_Interface → Configuration → M (Configuration * option error).

Definition GetKubeadmFunction (r : KubeadmPhase) : option kubeadmFunction * option error :=
  if decide (Phase r = PhaseUploadConfigKubeadm) then
    (Some kubeadm_UploadKubeadmConfig, None)
  else if decide (Phase r = PhaseUploadConfigKubelet) then
    (Some kubeadm_UploadKubeletConfig, None)
  else if decide (Phase r = PhaseBootstrapToken) then
    (Some (λ client config,
       tokens ← bootstrapTokensEnrichment (BootstrapTokens (InitConfiguration config));
       '(config, err) ← kubeadm_BootstrapToken client (set_BootstrapTokens tokens config);
       mret (config, (None, err))),
     None)
  else
    (None,
     Some (errorString ("no available functionality for phase " +:+ fmt_verb_s (Phase r)))).

(** The identifier and the secret a token record holds in a given state;
    a record without a token string has neither. *)
Definition token_ID (s : State) (b : BootstrapToken) : string :=
  match Token b with
  | Some l => match heap s !! l with Some t => ID t | None => "" end
  | None => ""
  end.

Definition token_Secret (s : State) (b : BootstrapToken) : string :=
  match Token b with
  | Some l => match heap s !! l with Some t => Secret t | None => "" end
  | None => ""
  end.

(** The pointer of the record, when it is not nil, refers to an allocated
    cell. *)
Definition valid (s : State) (b : BootstrapToken) : Prop :=
  match Token b with
  | Some l => (l < length (heap s))%nat
  | None => True
  end.

End Phases.

Arguments heap {World} _.
Arguments world {World} _.
Arguments Build_State {World} _ _.
Arguments enrichBootstrapToken {World} utils_RandomString bootstrapToken _.
Arguments bootstrapTokensEnrichment {World} utils_RandomString bootstrapTokens _.
Arguments GetKubeadmFunction {World} utils_RandomString kubeadm_UploadKubeadmConfig
  kubeadm_UploadKubeletConfig kubeadm_BootstrapToken r.
Arguments token_ID {World} s b.
Arguments token_Secret {World} s b.
Arguments valid {World} s b.
Arguments generated_ID {World} utils_RandomString w.
Arguments world_after {World} utils_RandomString w.

(** A deterministic random source and inert kubeadm routines, to run the
    code on concrete inputs. *)
Definition counting_RandomString (n : Z) (w : nat) : string * nat :=
  (String.concat "" (replicate (Z.to_nat n) (pretty (Z.of_nat w mod 10))), S w).

Definition inert_Upload (payload : list Byte.byte) : kubeadmFunction nat :=
  λ client config s, Returns (config, (Some payload, None), s).

Definition inert_BootstrapToken
    : clientset_Interface → Configuration → M nat (Configuration * option error) :=
  λ client config s, Returns (config, None, s).

(** The text [fmt] prints for a phase that has no display name. *)
Definition panic_text (d : Z) : string :=
  "%!s(PANIC=String method: runtime error: index out of range [" +:+ pretty d +:+
  (if decide (d < 0) then "])" else "] with length 5)").

(** Sample values: an owning resource with the given three checksums and a
    phase handle with the given identity and stored checksum. *)
Definition sample_tcp (c0 c1 c2 : string) : TenantControlPlane :=
  {| Status := {| kamajiv1alpha1.KubeadmPhase :=
       {| UploadConfigKubeadm := {| Checksum := c0 |};
          UploadConfigKubelet := {| Checksum := c1 |};
          kamajiv1alpha1.BootstrapToken := {| Checksum := c2 |} |} |} |}.

Definition sample_phase (p : kubeadmPhase) (c : string) : KubeadmPhase :=
  {| Client := ClientHandle 0; Name := "sample"; Phase := p; checksum := c |}.

(** A state with one allocated token string, and the record pointing to it. *)
Definition sample_state (id secret : string) : State nat :=
  {| heap := [{| ID := id; Secret := secret |}]; world := 0%nat |}.

Definition sample_token : BootstrapToken :=
  set_Token (Some 0%nat) zero_BootstrapToken.

(** ** Creation *)

Section Creation.

Variable World : Type.

(** The result tag of controller-runtime, a string type in Go. *)
Definition OperationResult : Type := string.

(** [KubeadmPhaseCreate], of this package but of another file: it receives
    the phase resource, the logger (its key/value pairs) and the owning
    resource, which it may change. *)
Variable KubeadmPhaseCreate :
  KubeadmPhase → list (string * string) → TenantControlPlane →
  M World (TenantControlPlane * (OperationResult * option error)).

(** As in [UpdateTenantControlPlaneStatus], the logger is built first and
    [String] is called on the phase outside of [fmt]. *)
Definition CreateOrUpdate (r : KubeadmPhase) (tenantControlPlane : TenantControlPlane)
    : M World (TenantControlPlane * (OperationResult * option error)) :=
  match kubeadmPhase_String (Phase r) with
  | Panics e => lift World (Panics e)
  | Returns phase_name =>
      let logger := [("resource", GetName r); ("phase", phase_name)] in
      KubeadmPhaseCreate r logger tenantControlPlane
  end.

End Creation.

Arguments CreateOrUpdate {World} KubeadmPhaseCreate r tenantControlPlane _.

(** A creation routine that reports the logger's phase name as its result
    tag, to run [CreateOrUpdate] on concrete inputs. *)
Definition echo_KubeadmPhaseCreate (r : KubeadmPhase) (logger : list (string * string))
    (tcp : TenantControlPlane)
    : M nat (TenantControlPlane * (OperationResult * option error)) :=
  λ s, Returns (tcp, (default "" (snd <$> last logger), None), s).

(** Further sample values: a configuration with the given bootstrap
    tokens, the function the dispatcher resolves for PhaseBootstrapToken
    with the inert routines, and the state the enrichment of the zero
    record leaves from [sample_state "keep.me" "s3cr3t"]. *)
Definition sample_config (l : list BootstrapToken) : Configuration :=
  {| kubeadm.InitConfiguration := {| kubeadmapi.BootstrapTokens := l |} |}.

Definition sample_bootstrap_function : kubeadmFunction nat :=
  default (inert_Upload [])
    (fst (GetKubeadmFunction counting_RandomString (inert_Upload []) (inert_Upload [])
            inert_BootstrapToken (sample_phase PhaseBootstrapToken "abc123"))).

Definition sample_state_enriched : State nat :=
  {| heap := [{| ID := "keep.me"; Secret := "s3cr3t" |};
              {| ID := "000000.1111111111111111"; Secret := "" |}];
     world := 2%nat |}.

Definition sample_token_fresh : BootstrapToken :=
  set_Token (Some 1%nat) zero_BootstrapToken.

(** * Properties *)

(** ** Strings *)

Lemma string_app_cons a s t : String a s +:+ t = String a (s +:+ t).
Proof. reflexivity. Qed.

Lemma string_app_assoc s t u : (s +:+ t) +:+ u = s +:+ (t +:+ u).
Proof.
  induction s as [|a s IH]; [reflexivity|].
  rewrite !string_app_cons. by rewrite IH.
Qed.

Lemma string_app_length s t :
  String.length (s +:+ t) = (String.length s + String.length t)%nat.
Proof.
  induction s as [|a s IH]; [reflexivity|].
  rewrite string_app_cons. simpl. by rewrite IH.
Qed.

Lemma string_app_inv_tail s s' t : s +:+ t = s' +:+ t → s = s'.
Proof.
  revert s'. induction s as [|a s IH]; intros [|a' s'] H.
  - reflexivity.
  - apply (f_equal String.length) in H.
    rewrite string_app_cons in H. simpl in H.
    rewrite !string_app_length in H. simpl in H. lia.
  - apply (f_equal String.length) in H.
    rewrite string_app_cons in H. simpl in H.
    rewrite !string_app_length in H. simpl in H. lia.
  - rewrite !string_app_cons in H. injection H as -> H.
    f_equal. by apply IH.
Qed.

Lemma string_app_ne_empty s t : t ≠ "" → s +:+ t ≠ "".
Proof.
  destruct s; [done|]. rewrite string_app_cons. discriminate.
Qed.

(** ** Display names and their rendering *)

Lemma kubeadmPhase_String_inside d :
  0 ≤ d ≤ 4 →
  ∃ s, kubeadmPhase_String d = Returns s ∧ display_names !! Z.to_nat d = Some s.
Proof.
  intros Hd.
  assert (d = 0 ∨ d = 1 ∨ d = 2 ∨ d = 3 ∨ d = 4) as Hcases by lia.
  destruct Hcases as [->|[->|[->|[->| ->]]]];
    (eexists; split; reflexivity).
Qed.

Lemma kubeadmPhase_String_outside d :
  ¬ (0 ≤ d ≤ 4) → kubeadmPhase_String d = Panics (boundsError d 5).
Proof.
  intros Hd. unfold kubeadmPhase_String, index_array.
  destruct (decide (0 ≤ d)) as [Hpos|Hneg]; [|reflexivity].
  rewrite (proj2 (lookup_ge_None display_names (Z.to_nat d))); [reflexivity|].
  unfold display_names; simpl; lia.
Qed.

Lemma fmt_verb_s_outside d : ¬ (0 ≤ d ≤ 4) → fmt_verb_s d = panic_text d.
Proof.
  intros Hd. unfold fmt_verb_s. rewrite kubeadmPhase_String_outside by done.
  unfold panic_text, runtime_error_Error.
  change (pretty 5) with "5".
  rewrite !string_app_assoc.
  destruct (decide (d < 0)); reflexivity.
Qed.

Lemma fmt_verb_s_inside d :
  0 ≤ d ≤ 4 → ∃ a s, fmt_verb_s d = String a s ∧ a = "P"%char.
Proof.
  intros Hd.
  assert (d = 0 ∨ d = 1 ∨ d = 2 ∨ d = 3 ∨ d = 4) as Hcases by lia.
  destruct Hcases as [->|[->|[->|[->| ->]]]]; by do 2 eexists.
Qed.


(** The decimal rendering of a non-negative integer, followed by a
    character other than the minus sign, does not start with a minus sign. *)
Lemma pretty_nonneg_no_dash (d : Z) a t t' :
  0 ≤ d → a ≠ "-"%char → pretty d +:+ String a t ≠ "-" +:+ t'.
Proof.
  intros Hd Ha H.
  destruct d as [|p|p]; [discriminate H| |lia].
  unfold pretty, pretty_Z, pretty, pretty_positive, pretty, pretty_N in H.
  destruct (decide (N.pos p = 0)%N) as [|_]; [done|].
  destruct (pretty_N_go (N.pos p) "") as [|c s] eqn:Hgo.
  - injection H as -> _. done.
  - rewrite string_app_cons in H. injection H as -> _.
    by apply (pretty_N_go_ne_dash (N.pos p) "" s).
Qed.

Lemma pretty_neg_dash (d : Z) : d < 0 → ∃ s, pretty d = "-" +:+ s.
Proof.
  intros Hd. destruct d as [|p|p]; [lia|lia|].
  by eexists.
Qed.

Lemma panic_text_inj (d d' : Z) : panic_text d = panic_text d' → d = d'.
Proof.
  unfold panic_text. intros H.
  apply (inj (String.app _)) in H.
  destruct (decide (d < 0)) as [Hd|Hd], (decide (d' < 0)) as [Hd'|Hd'].
  - apply string_app_inv_tail in H. by apply (inj pretty) in H.
  - exfalso. destruct (pretty_neg_dash d Hd) as [s Hs].
    rewrite Hs, string_app_assoc in H. symmetry in H.
    revert H. apply pretty_nonneg_no_dash; [lia|done].
  - exfalso. destruct (pretty_neg_dash d' Hd') as [s Hs].
    rewrite Hs, string_app_assoc in H.
    revert H. apply pretty_nonneg_no_dash; [lia|done].
  - apply string_app_inv_tail in H. by apply (inj pretty) in H.
Qed.

(** The rendering of a phase under [%s] determines the phase. *)
Lemma fmt_verb_s_inj d d' : fmt_verb_s d = fmt_verb_s d' → d = d'.
Proof.
  intros H.
  destruct (decide (0 ≤ d ≤ 4)) as [Hd|Hd], (decide (0 ≤ d' ≤ 4)) as [Hd'|Hd'].
  - assert (d = 0 ∨ d = 1 ∨ d = 2 ∨ d = 3 ∨ d = 4) as Hc by lia.
    assert (d' = 0 ∨ d' = 1 ∨ d' = 2 ∨ d' = 3 ∨ d' = 4) as Hc' by lia.
    destruct Hc as [->|[->|[->|[->| ->]]]], Hc' as [->|[->|[->|[->| ->]]]];
      first [reflexivity | discriminate H].
  - destruct (fmt_verb_s_inside d Hd) as (a & s & Hs & ->).
    rewrite Hs, (fmt_verb_s_outside d' Hd') in H. discriminate H.
  - destruct (fmt_verb_s_inside d' Hd') as (a & s & Hs & ->).
    rewrite Hs, (fmt_verb_s_outside d Hd) in H. discriminate H.
  - rewrite (fmt_verb_s_outside d Hd), (fmt_verb_s_outside d' Hd') in H.
    by apply panic_text_inj.
Qed.

(** ** Phase identities *)

(** C10. The table of display names has five entries, the enumeration
    declares three values; the declared identity PhaseBootstrapToken, of
    value 2, is displayed as "PhaseAddonCoreDNS" and not as
    "PhaseBootstrapToken"; String returns exactly on the values 0 to 4 and
    panics with an index error on every other one. *)
Theorem display_names_out_of_step :
  length display_names = 5%nat ∧
  length declared_phases = 3%nat ∧
  PhaseBootstrapToken = 2 ∧
  kubeadmPhase_String PhaseBootstrapToken = Returns "PhaseAddonCoreDNS" ∧
  kubeadmPhase_String PhaseBootstrapToken ≠ Returns "PhaseBootstrapToken" ∧
  kubeadmPhase_String 4 = Returns "PhaseBootstrapToken" ∧
  ∀ d : kubeadmPhase,
    ((∃ s, kubeadmPhase_String d = Returns s) ↔ 0 ≤ d ≤ 4) ∧
    (¬ (0 ≤ d ≤ 4) → kubeadmPhase_String d = Panics (boundsError d 5)).
Proof.
  do 4 (split; [reflexivity|]).
  split; [discriminate|].
  split; [reflexivity|].
  intros d. split; [split|].
  - intros [s Hs]. destruct (decide (0 ≤ d ≤ 4)) as [Hin|Hout]; [exact Hin|].
    rewrite (kubeadmPhase_String_outside d Hout) in Hs. discriminate Hs.
  - intros Hd. destruct (kubeadmPhase_String_inside d Hd) as (s & Hs & _). eauto.
  - apply kubeadmPhase_String_outside.
Qed.

(** ** Status tracking *)

Lemma GetStatus_declared r tcp :
  In (Phase r) declared_phases →
  ∃ a, GetStatus r tcp = (Some (ptr_KubeadmPhaseStatus a), None).
Proof.
  unfold declared_phases, GetStatus. simpl. intros [H|[H|[H|[]]]]; rewrite <- H.
  - by eexists.
  - by eexists.
  - by eexists.
Qed.

Lemma GetStatus_undeclared r tcp :
  ¬ In (Phase r) declared_phases →
  GetStatus r tcp =
    (None, Some (errorString (fmt_verb_s (Phase r) +:+ " is not a right kubeadm phase"))).
Proof.
  unfold declared_phases, GetStatus. simpl. intros H.
  repeat (destruct (decide _) as [Heq|_]; [exfalso; apply H; rewrite Heq; tauto|]).
  reflexivity.
Qed.

Lemma load_store a v tcp : load a (store a v tcp) = v.
Proof. by destruct a. Qed.

Lemma load_store_other a a' v tcp : a' ≠ a → load a' (store a v tcp) = load a' tcp.
Proof. by destruct a, a'. Qed.

Lemma isStatusEqual_lookup_failure r tcp err :
  snd (GetStatus r tcp) = Some err → isStatusEqual r tcp = true.
Proof.
  unfold isStatusEqual.
  destruct (GetStatus r tcp) as [[i|] [e|]]; simpl; first [done|discriminate].
Qed.

(** The lookup does not depend on the checksum the phase stores. *)
Lemma GetStatus_SetKubeadmConfigChecksum r c tcp :
  GetStatus (SetKubeadmConfigChecksum r c) tcp = GetStatus r tcp.
Proof. reflexivity. Qed.

(** C2. Whenever the status lookup of a phase on an owning resource fails,
    ShouldStatusBeUpdated returns false: the failure is reported as
    "unchanged" and is not propagated. *)
Theorem ShouldStatusBeUpdated_lookup_failure r tcp err :
  snd (GetStatus r tcp) = Some err → ShouldStatusBeUpdated r tcp = false.
Proof.
  intros H. unfold ShouldStatusBeUpdated.
  by rewrite (isStatusEqual_lookup_failure r tcp err H).
Qed.

(** C3, as stated: a failed status lookup makes the phase count as changed.
    It does not: on the undeclared identity 3 the lookup fails and
    ShouldStatusBeUpdated is false. *)
Lemma lookup_failure_not_treated_as_changed :
  ¬ (∀ r tcp err,
       snd (GetStatus r tcp) = Some err → ShouldStatusBeUpdated r tcp = true).
Proof.
  intros H.
  specialize (H (sample_phase 3 "abc123") (sample_tcp "" "" "") _ eq_refl).
  discriminate H.
Qed.

(** C3, amended. When the status lookup fails during drift checking, the
    error is swallowed with the consequence "treat as unchanged":
    isStatusEqual is true and ShouldStatusBeUpdated is false, whatever
    checksum the phase stores, so the status write is skipped. *)
Theorem lookup_failure_treated_as_unchanged r tcp err :
  snd (GetStatus r tcp) = Some err →
  isStatusEqual r tcp = true ∧
  ∀ c, ShouldStatusBeUpdated (SetKubeadmConfigChecksum r c) tcp = false.
Proof.
  intros H. split; [by apply (isStatusEqual_lookup_failure r tcp err)|].
  intros c. unfold ShouldStatusBeUpdated.
  rewrite (isStatusEqual_lookup_failure _ tcp err); [reflexivity|].
  by rewrite GetStatus_SetKubeadmConfigChecksum.
Qed.

(** C5. For a phase of a declared identity, the status lookup yields a
    KubeadmPhaseStatus record, UpdateTenantControlPlaneStatus succeeds, and
    on the resource it leaves ShouldStatusBeUpdated returns false. *)
Theorem status_settled_after_update r tcp :
  In (Phase r) declared_phases →
  (∃ a, fst (GetStatus r tcp) = Some (ptr_KubeadmPhaseStatus a)) ∧
  ∃ tcp' log,
    UpdateTenantControlPlaneStatus r tcp = Returns (tcp', log, None) ∧
    ShouldStatusBeUpdated r tcp' = false.
Proof.
  intros Hin.
  destruct (GetStatus_declared r tcp Hin) as [a Ha].
  split; [exists a; by rewrite Ha|].
  exists (store a {| Checksum := checksum r |} tcp), [].
  assert (0 ≤ Phase r ≤ 4) as Hrange.
  { revert Hin. unfold declared_phases. simpl.
    unfold PhaseUploadConfigKubeadm, PhaseUploadConfigKubelet, PhaseBootstrapToken. lia. }
  destruct (kubeadmPhase_String_inside _ Hrange) as (s & Hs & _).
  split.
  - unfold UpdateTenantControlPlaneStatus. by rewrite Hs, Ha.
  - unfold ShouldStatusBeUpdated, isStatusEqual.
    destruct (GetStatus_declared r (store a {| Checksum := checksum r |} tcp) Hin)
      as [a' Ha'].
    assert (a' = a) as ->.
    { revert Ha Ha'. unfold GetStatus. repeat destruct (decide _); congruence. }
    rewrite Ha'. simpl. rewrite load_store. simpl.
    by rewrite bool_decide_eq_true_2.
Qed.

(** The contract "succeed and overwrite the checksum, or return the lookup
    error" does not hold on every identity: on the identity 5 the call does
    neither. *)
Lemma UpdateTenantControlPlaneStatus_panics_outside_table :
  ¬ (∀ r tcp,
       (∃ tcp' log a,
          fst (GetStatus r tcp) = Some (ptr_KubeadmPhaseStatus a) ∧
          UpdateTenantControlPlaneStatus r tcp = Returns (tcp', log, None) ∧
          Checksum (load a tcp') = checksum r) ∨
       (∃ err log,
          snd (GetStatus r tcp) = Some err ∧
          UpdateTenantControlPlaneStatus r tcp = Returns (tcp, log, Some err))).
Proof.
  intros H.
  destruct (H (sample_phase 5 "abc123") (sample_tcp "" "" ""))
    as [(tcp' & log & a & _ & Hup & _)|(err & log & _ & Hup)];
    discriminate Hup.
Qed.

(** On the identities 0 to 4 the contract holds: the call either succeeds
    and overwrites the checksum of the phase's status record with the
    checksum the phase stores, leaving the other records as they were, or,
    when the status lookup fails, logs and returns that lookup error and
    leaves the owning resource unchanged. *)
Theorem UpdateTenantControlPlaneStatus_writes_or_fails r tcp :
  0 ≤ Phase r ≤ 4 →
  (∃ tcp' a,
     fst (GetStatus r tcp) = Some (ptr_KubeadmPhaseStatus a) ∧
     UpdateTenantControlPlaneStatus r tcp = Returns (tcp', [], None) ∧
     Checksum (load a tcp') = checksum r ∧
     ∀ a', a' ≠ a → load a' tcp' = load a' tcp) ∨
  (∃ err entry,
     snd (GetStatus r tcp) = Some err ∧
     UpdateTenantControlPlaneStatus r tcp = Returns (tcp, [entry], Some err) ∧
     log_err entry = err).
Proof.
  intros Hrange.
  destruct (kubeadmPhase_String_inside _ Hrange) as (s & Hs & _).
  destruct (decide (In (Phase r) declared_phases)) as [Hin|Hout].
  - left. destruct (GetStatus_declared r tcp Hin) as [a Ha].
    exists (store a {| Checksum := checksum r |} tcp), a.
    unfold UpdateTenantControlPlaneStatus. rewrite Hs, Ha. simpl.
    rewrite load_store. repeat split. intros a' Hne. by apply load_store_other.
  - right. pose proof (GetStatus_undeclared r tcp Hout) as Hg.
    do 2 eexists. unfold UpdateTenantControlPlaneStatus. rewrite Hs, Hg. simpl.
    repeat split.
Qed.

(** C8. On an identity outside 0 to 4 the status lookup fails with an
    error, and UpdateTenantControlPlaneStatus does not return that error:
    String is called on the phase while the logger is built, before the
    lookup, and the call panics with an index error. The owning resource
    is not written, and nothing is logged or returned. *)
Theorem UpdateTenantControlPlaneStatus_panics_before_lookup r tcp :
  ¬ (0 ≤ Phase r ≤ 4) →
  GetStatus r tcp =
    (None, Some (errorString (fmt_verb_s (Phase r) +:+ " is not a right kubeadm phase"))) ∧
  UpdateTenantControlPlaneStatus r tcp = Panics (boundsError (Phase r) 5).
Proof.
  intros Hout. split.
  - apply GetStatus_undeclared.
    unfold declared_phases, PhaseUploadConfigKubeadm, PhaseUploadConfigKubelet,
      PhaseBootstrapToken.
    simpl. lia.
  - unfold UpdateTenantControlPlaneStatus.
    by rewrite (kubeadmPhase_String_outside _ Hout).
Qed.

(** ** Bootstrap token enrichment *)

Section EnrichmentProperties.

Context {World : Type} (utils_RandomString : Z → World → string * World).

#[local] Abbreviation enrich := (enrichBootstrapToken utils_RandomString).
#[local] Abbreviation enrich_all := (bootstrapTokensEnrichment utils_RandomString).
#[local] Abbreviation new_ID := (generated_ID utils_RandomString).
#[local] Abbreviation next_world := (world_after utils_RandomString).

Lemma generated_ID_nonempty w : new_ID w ≠ "".
Proof.
  unfold generated_ID.
  destruct (utils_RandomString 6 w) as [a w1].
  destruct (utils_RandomString 16 w1) as [b w2].
  apply string_app_ne_empty. discriminate.
Qed.

Ltac run :=
  unfold enrichBootstrapToken, bootstrapTokensEnrichment, assign_index, lift,
    RandomString, assign_ID, deref, new_BootstrapTokenString,
    mbind, M_bind, mret, M_ret; simpl.

Lemma enrich_populated s b l t :
  Token b = Some l → heap s !! l = Some t → ID t ≠ "" →
  enrich b s = Returns (b, s).
Proof.
  intros Hl Ht Hid. run. rewrite Hl. simpl. rewrite Hl, Ht.
  destruct (decide (ID t = "")); [done|reflexivity].
Qed.

Lemma enrich_blank s b l t :
  Token b = Some l → heap s !! l = Some t → ID t = "" →
  enrich b s =
    Returns (b, {| heap := <[l := set_ID (new_ID (world s)) t]> (heap s);
                   world := next_world (world s) |}).
Proof.
  intros Hl Ht Hid. run. rewrite Hl. simpl. rewrite Hl, Ht.
  destruct (decide (ID t = "")); [|done].
  unfold generated_ID, world_after.
  destruct (utils_RandomString 6 (world s)) as [a w1]. simpl.
  destruct (utils_RandomString 16 w1) as [c w2]. simpl.
  by rewrite Ht.
Qed.

Lemma enrich_nil s b :
  Token b = None →
  enrich b s =
    Returns (set_Token (Some (length (heap s))) b,
             {| heap := heap s ++ [{| ID := new_ID (world s); Secret := "" |}];
                world := next_world (world s) |}).
Proof.
  intros Hl. run. rewrite Hl. simpl.
  rewrite lookup_app_r, Nat.sub_diag by lia. simpl.
  unfold generated_ID, world_after.
  destruct (utils_RandomString 6 (world s)) as [a w1]. simpl.
  destruct (utils_RandomString 16 w1) as [c w2]. simpl.
  rewrite lookup_app_r, Nat.sub_diag by lia. simpl.
  do 3 f_equal.
  rewrite insert_app_r_alt, Nat.sub_diag by lia. reflexivity.
Qed.

Lemma enrich_returns s b :
  valid s b →
  ∃ b' s',
    enrich b s = Returns (b', s') ∧
    token_ID s' b' ≠ "" ∧
    (token_ID s b ≠ "" → b' = b ∧ s' = s) ∧
    token_Secret s' b' = token_Secret s b.
Proof.
  unfold valid. intros Hv. destruct (Token b) as [l|] eqn:Hl.
  - assert (is_Some (heap s !! l)) as [t Ht] by (by apply lookup_lt_is_Some).
    destruct (decide (ID t = "")) as [Hid|Hid].
    + do 2 eexists. split; [by apply (enrich_blank s b l t)|].
      unfold token_ID, token_Secret. rewrite Hl, Ht. simpl.
      rewrite list_lookup_insert_eq by (by eapply lookup_lt_Some). simpl.
      split; [apply generated_ID_nonempty|]. split; [done|reflexivity].
    + do 2 eexists. split; [by apply (enrich_populated s b l t)|].
      unfold token_ID, token_Secret. rewrite Hl, Ht. done.
  - do 2 eexists. split; [by apply enrich_nil|].
    unfold token_ID, token_Secret. rewrite Hl. simpl.
    rewrite lookup_app_r, Nat.sub_diag by lia. simpl.
    split; [apply generated_ID_nonempty|]. split; [done|reflexivity].
Qed.

Lemma token_ID_valid (s : State World) b : token_ID s b ≠ "" → valid s b.
Proof.
  unfold token_ID, valid. intros H. destruct (Token b) as [l|]; [|done].
  destruct (heap s !! l) as [t|] eqn:Ht; [|done]. by eapply lookup_lt_Some.
Qed.

(** On a non-empty slice the enriched first record is stored at index
    zero. *)
Lemma bootstrapTokensEnrichment_slot_zero s b rest :
  enrich_all (b :: rest) s =
    match enrich b s with
    | Returns (b', s') => Returns (b' :: rest, s')
    | Panics e => Panics e
    end.
Proof.
  unfold bootstrapTokensEnrichment, assign_index, lift, mbind, M_bind, mret, M_ret.
  simpl. destruct (enrich b s) as [[b' s']|e]; reflexivity.
Qed.

Lemma enrich_all_empty (s : State World) :
  enrich_all [] s = Panics (boundsError 0 0).
Proof.
  unfold bootstrapTokensEnrichment, assign_index, lift, mbind, M_bind, mret, M_ret.
  simpl. rewrite (enrich_nil s zero_BootstrapToken eq_refl). reflexivity.
Qed.

Lemma enrich_all_populated s b rest :
  token_ID s b ≠ "" →
  enrich b s = Returns (b, s) ∧ enrich_all (b :: rest) s = Returns (b :: rest, s).
Proof.
  intros Hid.
  assert (enrich b s = Returns (b, s)) as He.
  { destruct (enrich_returns s b (token_ID_valid s b Hid))
      as (b' & s' & He & _ & Hsame & _).
    destruct (Hsame Hid) as [-> ->]. exact He. }
  split; [exact He|].
  rewrite bootstrapTokensEnrichment_slot_zero, He. reflexivity.
Qed.

(** C1. On the empty slice the enrichment does not complete: the record
    is enriched, and the assignment to index zero panics with an index
    error. *)
Theorem bootstrapTokensEnrichment_empty_panics (s : State World) :
  enrich_all [] s = Panics (boundsError 0 0).
Proof. apply enrich_all_empty. Qed.

(** C6. A token whose identifier is non-empty is left as it is by the
    enrichment, identifier included, and so is the state; enriching a
    list that starts with such a token, in particular a non-empty list
    whose tokens are all populated, returns the same list in the same
    state. *)
Theorem enrichment_keeps_populated s b :
  token_ID s b ≠ "" →
  enrich b s = Returns (b, s) ∧
  ∀ rest, enrich_all (b :: rest) s = Returns (b :: rest, s).
Proof.
  intros Hid. split.
  - apply (enrich_all_populated s b [] Hid).
  - intros rest. apply (enrich_all_populated s b rest Hid).
Qed.

(** Enriching a list a second time changes nothing. *)
Lemma bootstrapTokensEnrichment_twice l s l' s' :
  enrich_all l s = Returns (l', s') → enrich_all l' s' = Returns (l', s').
Proof.
  destruct l as [|b rest].
  - rewrite enrich_all_empty. discriminate.
  - rewrite bootstrapTokensEnrichment_slot_zero.
    destruct (enrich b s) as [[b' s1]|e] eqn:He; [|discriminate].
    intros [= <- <-].
    assert (token_ID s1 b' ≠ "") as Hid.
    { destruct (Token b) as [l|] eqn:Hl.
      - destruct (heap s !! l) as [t|] eqn:Ht.
        + destruct (enrich_returns s b) as (b2 & s2 & He2 & Hne & _).
          { unfold valid. rewrite Hl. by eapply lookup_lt_Some. }
          rewrite He in He2. by injection He2 as <- <-.
        + revert He. unfold enrichBootstrapToken, deref, mbind, M_bind, mret, M_ret.
          rewrite Hl. simpl. rewrite Hl, Ht. discriminate.
      - destruct (enrich_returns s b) as (b2 & s2 & He2 & Hne & _).
        { unfold valid. by rewrite Hl. }
        rewrite He in He2. by injection He2 as <- <-. }
    apply (enrich_all_populated s1 b' rest Hid).
Qed.

(** C7, amended. After the enrichment of a record the identifier is
    non-empty; an identifier that was non-empty is the same afterwards;
    the secret is what it was before, empty or not. *)
Theorem enrichment_fills_identifier_only s b :
  valid s b →
  ∃ b' s',
    enrich b s = Returns (b', s') ∧
    token_ID s' b' ≠ "" ∧
    (token_ID s b ≠ "" → token_ID s' b' = token_ID s b) ∧
    token_Secret s' b' = token_Secret s b.
Proof.
  intros Hv.
  destruct (enrich_returns s b Hv) as (b' & s' & He & Hne & Hsame & Hsec).
  exists b', s'. repeat split; try done.
  intros Hid. by destruct (Hsame Hid) as [-> ->].
Qed.

End EnrichmentProperties.

(** C7, as stated: after enrichment identifier and secret are both
    non-empty and non-empty values are kept. They are not both non-empty:
    the enrichment of the zero record generates an identifier and leaves the
    secret empty. *)
Lemma enrichment_leaves_secret_empty :
  ¬ (∀ (s : State nat) b b' s',
       enrichBootstrapToken counting_RandomString b s = Returns (b', s') →
       (token_ID s' b' ≠ "" ∧ token_Secret s' b' ≠ "") ∧
       (token_ID s b ≠ "" → token_ID s' b' = token_ID s b) ∧
       (token_Secret s b ≠ "" → token_Secret s' b' = token_Secret s b)).
Proof.
  intros H.
  destruct (H {| heap := []; world := 0%nat |} zero_BootstrapToken _ _
              (enrich_nil counting_RandomString
                 {| heap := []; world := 0%nat |} zero_BootstrapToken eq_refl))
    as [[_ Hsec] _].
  by apply Hsec.
Qed.

(** ** Dispatch *)

Section DispatchProperties.

Context {World : Type} (utils_RandomString : Z → World → string * World).
Context (kubeadm_UploadKubeadmConfig kubeadm_UploadKubeletConfig : kubeadmFunction World).
Context (kubeadm_BootstrapToken :
  clientset_Interface → Configuration → M World (Configuration * option error)).

#[local] Abbreviation resolve :=
  (GetKubeadmFunction utils_RandomString kubeadm_UploadKubeadmConfig
     kubeadm_UploadKubeletConfig kubeadm_BootstrapToken).
#[local] Abbreviation enrich := (enrichBootstrapToken utils_RandomString).
#[local] Abbreviation enrich_all := (bootstrapTokensEnrichment utils_RandomString).

Lemma GetKubeadmFunction_declared r :
  In (Phase r) declared_phases → snd (resolve r) = None.
Proof.
  unfold declared_phases, GetKubeadmFunction. simpl.
  intros [H|[H|[H|[]]]]; rewrite <- H; reflexivity.
Qed.

Lemma GetKubeadmFunction_undeclared r :
  ¬ In (Phase r) declared_phases →
  resolve r =
    (None,
     Some (errorString ("no available functionality for phase " +:+ fmt_verb_s (Phase r)))).
Proof.
  unfold declared_phases, GetKubeadmFunction. simpl. intros H.
  repeat (destruct (decide _) as [Heq|_]; [exfalso; apply H; rewrite Heq; tauto|]).
  reflexivity.
Qed.


(** C9. For the two upload phases the dispatcher returns the upload
    routine of package kubeadm itself. For PhaseBootstrapToken it returns
    a function that first enriches the bootstrap tokens of the
    configuration, then calls the token routine of package kubeadm on the
    configuration so changed, and returns the nil payload with the error
    of that routine; a panic of either step is the panic of the function.
    When the token list starts with a valid record, the record handed to
    the token routine in slot zero is the enriched one: its identifier is
    non-empty, and it is the caller's record when that one had an
    identifier. When the token list is empty the function does not
    delegate: it panics with an index error, whatever the token routine
    is. *)
Theorem GetKubeadmFunction_dispatch (c : client_Client) (n k : string) :
  resolve {| Client := c; Name := n; Phase := PhaseUploadConfigKubeadm; checksum := k |}
    = (Some kubeadm_UploadKubeadmConfig, None) ∧
  resolve {| Client := c; Name := n; Phase := PhaseUploadConfigKubelet; checksum := k |}
    = (Some kubeadm_UploadKubeletConfig, None) ∧
  ∃ f,
    resolve {| Client := c; Name := n; Phase := PhaseBootstrapToken; checksum := k |}
      = (Some f, None) ∧
    (∀ client config s,
       f client config s =
         match enrich_all (BootstrapTokens (InitConfiguration config)) s with
         | Panics e => Panics e
         | Returns (tokens, s1) =>
             match kubeadm_BootstrapToken client (set_BootstrapTokens tokens config) s1 with
             | Panics e => Panics e
             | Returns (config', err, s2) => Returns (config', (None, err), s2)
             end
         end) ∧
    (∀ client config s b rest,
       BootstrapTokens (InitConfiguration config) = b :: rest → valid s b →
       ∃ b' s1,
         enrich b s = Returns (b', s1) ∧
         token_ID s1 b' ≠ "" ∧
         (token_ID s b ≠ "" → b' = b ∧ s1 = s) ∧
         token_Secret s1 b' = token_Secret s b ∧
         f client config s =
           match kubeadm_BootstrapToken client (set_BootstrapTokens (b' :: rest) config) s1 with
           | Panics e => Panics e
           | Returns (config', err, s2) => Returns (config', (None, err), s2)
           end) ∧
    (∀ client config s,
       BootstrapTokens (InitConfiguration config) = [] →
       f client config s = Panics (boundsError 0 0)).
Proof.
  split; [reflexivity|]. split; [reflexivity|].
  eexists. split; [reflexivity|].
  assert (∀ client config s,
    (tokens ← enrich_all (BootstrapTokens (InitConfiguration config));
     '(config0, err) ← kubeadm_BootstrapToken client (set_BootstrapTokens tokens config);
     mret (config0, (None, err))) s =
    match enrich_all (BootstrapTokens (InitConfiguration config)) s with
    | Panics e => Panics e
    | Returns (tokens, s1) =>
        match kubeadm_BootstrapToken client (set_BootstrapTokens tokens config) s1 with
        | Panics e => Panics e
        | Returns (config', err, s2) =>
            Returns (config', (@None (list Byte.byte), err), s2)
        end
    end) as Hrun.
  { intros client config s. unfold mbind, M_bind, mret, M_ret.
    destruct (enrich_all _ s) as [[tokens s1]|e]; [|reflexivity].
    destruct (kubeadm_BootstrapToken client _ s1) as [[[config' err] s2]|e];
      reflexivity. }
  split; [exact Hrun|]. split.
  - intros client config s b rest Htokens Hv.
    destruct (enrich_returns utils_RandomString s b Hv)
      as (b' & s1 & He & Hne & Hsame & Hsec).
    exists b', s1.
    split; [exact He|]. split; [exact Hne|]. split; [exact Hsame|].
    split; [exact Hsec|].
    rewrite Hrun, Htokens, bootstrapTokensEnrichment_slot_zero, He. reflexivity.
  - intros client config s Htokens.
    rewrite Hrun, Htokens, (enrich_all_empty utils_RandomString s). reflexivity.
Qed.

End DispatchProperties.

(** ** The code on concrete inputs *)

Example fmt_verb_s_stale_entry : fmt_verb_s 4 = "PhaseBootstrapToken".
Proof. reflexivity. Qed.

Example fmt_verb_s_beyond_table :
  fmt_verb_s 7 =
    "%!s(PANIC=String method: runtime error: index out of range [7] with length 5)".
Proof. reflexivity. Qed.

Example fmt_verb_s_negative :
  fmt_verb_s (-1) = "%!s(PANIC=String method: runtime error: index out of range [-1])".
Proof. reflexivity. Qed.

Example enrichment_of_empty_list :
  bootstrapTokensEnrichment counting_RandomString [] {| heap := []; world := 0%nat |}
    = Panics (boundsError 0 0).
Proof. reflexivity. Qed.

Example enrichment_of_zero_record :
  enrichBootstrapToken counting_RandomString zero_BootstrapToken
    {| heap := []; world := 0%nat |}
  = Returns (sample_token,
             {| heap := [{| ID := "000000.1111111111111111"; Secret := "" |}];
                world := 2%nat |}).
Proof. reflexivity. Qed.

Example update_beyond_table :
  UpdateTenantControlPlaneStatus (sample_phase 5 "abc123") (sample_tcp "" "" "")
    = Panics (boundsError 5 5).
Proof. reflexivity. Qed.

Lemma ShouldStatusBeUpdated_lookup_failure_witness :
  snd (GetStatus (sample_phase 3 "abc123") (sample_tcp "" "" "")) =
    Some (errorString "PhaseAddonKubeProxy is not a right kubeadm phase") ∧
  ShouldStatusBeUpdated (sample_phase 3 "abc123") (sample_tcp "" "" "") = false.
Proof.
  split; [reflexivity|].
  apply (ShouldStatusBeUpdated_lookup_failure _ _
           (errorString "PhaseAddonKubeProxy is not a right kubeadm phase")).
  reflexivity.
Defined.

Lemma lookup_failure_treated_as_unchanged_witness :
  snd (GetStatus (sample_phase 7 "abc123") (sample_tcp "" "" "")) =
    Some (errorString
      "%!s(PANIC=String method: runtime error: index out of range [7] with length 5) is not a right kubeadm phase") ∧
  isStatusEqual (sample_phase 7 "abc123") (sample_tcp "" "" "") = true ∧
  ∀ c,
    ShouldStatusBeUpdated
      (SetKubeadmConfigChecksum (sample_phase 7 "abc123") c) (sample_tcp "" "" "") = false.
Proof.
  split; [reflexivity|].
  apply (lookup_failure_treated_as_unchanged _ _
           (errorString
      "%!s(PANIC=String method: runtime error: index out of range [7] with length 5) is not a right kubeadm phase")).
  reflexivity.
Defined.

Lemma status_settled_after_update_witness :
  In (Phase (sample_phase 2 "abc123")) declared_phases ∧
  (∃ a, fst (GetStatus (sample_phase 2 "abc123") (sample_tcp "" "" ""))
          = Some (ptr_KubeadmPhaseStatus a)) ∧
  ∃ tcp' log,
    UpdateTenantControlPlaneStatus (sample_phase 2 "abc123") (sample_tcp "" "" "")
      = Returns (tcp', log, None) ∧
    ShouldStatusBeUpdated (sample_phase 2 "abc123") tcp' = false.
Proof.
  split; [vm_compute; lia|].
  apply (status_settled_after_update (sample_phase 2 "abc123") (sample_tcp "" "" "")).
  vm_compute; lia.
Defined.

Lemma UpdateTenantControlPlaneStatus_writes_or_fails_witness :
  0 ≤ Phase (sample_phase 4 "abc123") ≤ 4 ∧
  ((∃ tcp' a,
      fst (GetStatus (sample_phase 4 "abc123") (sample_tcp "x" "y" "z"))
        = Some (ptr_KubeadmPhaseStatus a) ∧
      UpdateTenantControlPlaneStatus (sample_phase 4 "abc123") (sample_tcp "x" "y" "z")
        = Returns (tcp', [], None) ∧
      Checksum (load a tcp') = checksum (sample_phase 4 "abc123") ∧
      ∀ a', a' ≠ a → load a' tcp' = load a' (sample_tcp "x" "y" "z")) ∨
   (∃ err entry,
      snd (GetStatus (sample_phase 4 "abc123") (sample_tcp "x" "y" "z")) = Some err ∧
      UpdateTenantControlPlaneStatus (sample_phase 4 "abc123") (sample_tcp "x" "y" "z")
        = Returns (sample_tcp "x" "y" "z", [entry], Some err) ∧
      log_err entry = err)).
Proof.
  split; [simpl; lia|].
  apply (UpdateTenantControlPlaneStatus_writes_or_fails
           (sample_phase 4 "abc123") (sample_tcp "x" "y" "z")).
  simpl; lia.
Defined.

Lemma UpdateTenantControlPlaneStatus_panics_before_lookup_witness :
  ¬ (0 ≤ Phase (sample_phase 5 "abc123") ≤ 4) ∧
  GetStatus (sample_phase 5 "abc123") (sample_tcp "x" "y" "z") =
    (None,
     Some (errorString
       (fmt_verb_s (Phase (sample_phase 5 "abc123")) +:+ " is not a right kubeadm phase"))) ∧
  UpdateTenantControlPlaneStatus (sample_phase 5 "abc123") (sample_tcp "x" "y" "z")
    = Panics (boundsError (Phase (sample_phase 5 "abc123")) 5).
Proof.
  split; [simpl; lia|].
  apply (UpdateTenantControlPlaneStatus_panics_before_lookup
           (sample_phase 5 "abc123") (sample_tcp "x" "y" "z")).
  simpl; lia.
Defined.


Lemma enrichment_keeps_populated_witness :
  token_ID (sample_state "abcdef.0123456789abcdef" "") sample_token ≠ "" ∧
  enrichBootstrapToken counting_RandomString sample_token
      (sample_state "abcdef.0123456789abcdef" "")
    = Returns (sample_token, sample_state "abcdef.0123456789abcdef" "") ∧
  ∀ rest,
    bootstrapTokensEnrichment counting_RandomString (sample_token :: rest)
      (sample_state "abcdef.0123456789abcdef" "")
    = Returns (sample_token :: rest, sample_state "abcdef.0123456789abcdef" "").
Proof.
  split; [vm_compute; discriminate|].
  apply (enrichment_keeps_populated counting_RandomString
           (sample_state "abcdef.0123456789abcdef" "") sample_token).
  vm_compute; discriminate.
Defined.

Lemma enrichment_fills_identifier_only_witness :
  valid (sample_state "" "s3cr3t") sample_token ∧
  ∃ b' s',
    enrichBootstrapToken counting_RandomString sample_token (sample_state "" "s3cr3t")
      = Returns (b', s') ∧
    token_ID s' b' ≠ "" ∧
    (token_ID (sample_state "" "s3cr3t") sample_token ≠ "" →
     token_ID s' b' = token_ID (sample_state "" "s3cr3t") sample_token) ∧
    token_Secret s' b' = token_Secret (sample_state "" "s3cr3t") sample_token.
Proof.
  split; [vm_compute; lia|].
  apply (enrichment_fills_identifier_only counting_RandomString
           (sample_state "" "s3cr3t") sample_token).
  vm_compute; lia.
Defined.

(** * Further properties *)

(** ** Status tracking *)

Lemma GetStatus_tcp_irrelevant r tcp tcp' : GetStatus r tcp' = GetStatus r tcp.
Proof. reflexivity. Qed.

Lemma GetStatus_phase_irrelevant r r' tcp :
  Phase r' = Phase r → GetStatus r' tcp = GetStatus r tcp.
Proof. unfold GetStatus. by intros ->. Qed.

Lemma GetStatus_some_declared r tcp i :
  fst (GetStatus r tcp) = Some i → In (Phase r) declared_phases.
Proof.
  intros Hi. destruct (decide (In (Phase r) declared_phases)) as [|Hout]; [done|].
  rewrite (GetStatus_undeclared r tcp Hout) in Hi. discriminate Hi.
Qed.

Lemma GetStatus_address_inj r r' tcp tcp' i :
  fst (GetStatus r tcp) = Some i → fst (GetStatus r' tcp') = Some i →
  Phase r = Phase r'.
Proof.
  unfold GetStatus.
  repeat destruct (decide _); simpl; intros H H'; try discriminate;
    rewrite <- H in H'; try discriminate; congruence.
Qed.

(** The outcome of the update, by the address the lookup gives. *)
Lemma UpdateTenantControlPlaneStatus_declared r tcp a :
  GetStatus r tcp = (Some (ptr_KubeadmPhaseStatus a), None) →
  UpdateTenantControlPlaneStatus r tcp =
    Returns (store a {| Checksum := checksum r |} tcp, [], None).
Proof.
  intros Ha.
  assert (0 ≤ Phase r ≤ 4) as Hrange.
  { assert (In (Phase r) declared_phases) as Hin
      by (apply (GetStatus_some_declared r tcp (ptr_KubeadmPhaseStatus a)); by rewrite Ha).
    revert Hin. unfold declared_phases. simpl.
    unfold PhaseUploadConfigKubeadm, PhaseUploadConfigKubelet, PhaseBootstrapToken. lia. }
  destruct (kubeadmPhase_String_inside _ Hrange) as (s & Hs & _).
  unfold UpdateTenantControlPlaneStatus. by rewrite Hs, Ha.
Qed.

Lemma isStatusEqual_declared r tcp a :
  GetStatus r tcp = (Some (ptr_KubeadmPhaseStatus a), None) →
  isStatusEqual r tcp = bool_decide (Checksum (load a tcp) = checksum r).
Proof. unfold isStatusEqual. by intros ->. Qed.

(** X1. ShouldStatusBeUpdated is true exactly when the status lookup
    succeeds and the checksum of the record it yields differs from the
    checksum the phase stores. *)
Theorem ShouldStatusBeUpdated_iff_drift r tcp :
  ShouldStatusBeUpdated r tcp = true ↔
  ∃ a, GetStatus r tcp = (Some (ptr_KubeadmPhaseStatus a), None) ∧
       Checksum (load a tcp) ≠ checksum r.
Proof.
  unfold ShouldStatusBeUpdated.
  destruct (decide (In (Phase r) declared_phases)) as [Hin|Hout].
  - destruct (GetStatus_declared r tcp Hin) as [a Ha].
    rewrite (isStatusEqual_declared r tcp a Ha). split.
    + intros H. exists a. split; [done|].
      apply negb_true_iff, bool_decide_eq_false in H. exact H.
    + intros (a' & Ha' & Hne). rewrite Ha in Ha'. injection Ha' as <-.
      apply negb_true_iff, bool_decide_eq_false. exact Hne.
  - pose proof (GetStatus_undeclared r tcp Hout) as Hg.
    rewrite (isStatusEqual_lookup_failure r tcp _ (f_equal snd Hg)). split.
    + discriminate.
    + intros (a & Ha & _). rewrite Hg in Ha. discriminate Ha.
Qed.

(** X2. After a successful update by a phase of a declared identity, a
    handle of the same identity needs a status update exactly when its
    stored checksum differs from the one that was written. *)
Theorem drift_detected_after_update r r' tcp tcp' log :
  In (Phase r) declared_phases →
  Phase r' = Phase r →
  UpdateTenantControlPlaneStatus r tcp = Returns (tcp', log, None) →
  (ShouldStatusBeUpdated r' tcp' = true ↔ checksum r' ≠ checksum r).
Proof.
  intros Hin Hphase Hup.
  destruct (GetStatus_declared r tcp Hin) as [a Ha].
  rewrite (UpdateTenantControlPlaneStatus_declared r tcp a Ha) in Hup.
  injection Hup as <- _.
  assert (GetStatus r' (store a {| Checksum := checksum r |} tcp)
          = (Some (ptr_KubeadmPhaseStatus a), None)) as Ha'.
  { by rewrite (GetStatus_phase_irrelevant r r' _ Hphase),
      (GetStatus_tcp_irrelevant r tcp). }
  unfold ShouldStatusBeUpdated.
  rewrite (isStatusEqual_declared r' _ a Ha'), load_store. simpl.
  rewrite negb_true_iff, bool_decide_eq_false. split; intros H Heq; by apply H.
Qed.

(** X3. Whatever the update returns, it leaves the answer of
    ShouldStatusBeUpdated as it was for every phase of another identity. *)
Theorem update_leaves_other_phases r r' tcp tcp' log err :
  UpdateTenantControlPlaneStatus r tcp = Returns (tcp', log, err) →
  Phase r' ≠ Phase r →
  ShouldStatusBeUpdated r' tcp' = ShouldStatusBeUpdated r' tcp.
Proof.
  intros Hup Hne.
  destruct (decide (In (Phase r) declared_phases)) as [Hin|Hout].
  - destruct (GetStatus_declared r tcp Hin) as [a Ha].
    rewrite (UpdateTenantControlPlaneStatus_declared r tcp a Ha) in Hup.
    injection Hup as <- _ _.
    unfold ShouldStatusBeUpdated. f_equal.
    destruct (decide (In (Phase r') declared_phases)) as [Hin'|Hout'].
    + destruct (GetStatus_declared r' tcp Hin') as [a' Ha'].
      rewrite (isStatusEqual_declared r' tcp a' Ha').
      rewrite (isStatusEqual_declared r' _ a')
        by (by rewrite (GetStatus_tcp_irrelevant r' tcp)).
      rewrite load_store_other; [reflexivity|].
      intros ->. apply Hne. symmetry.
      apply (GetStatus_address_inj r r' tcp tcp (ptr_KubeadmPhaseStatus a));
        [by rewrite Ha|by rewrite Ha'].
    + pose proof (GetStatus_undeclared r' tcp Hout') as Hg.
      rewrite (isStatusEqual_lookup_failure r' tcp _ (f_equal snd Hg)).
      by rewrite (isStatusEqual_lookup_failure r' _ _
                    (f_equal snd (GetStatus_undeclared r' _ Hout'))).
  - revert Hup. unfold UpdateTenantControlPlaneStatus.
    rewrite (GetStatus_undeclared r tcp Hout).
    destruct (kubeadmPhase_String (Phase r)); [|discriminate].
    by intros [= <- _ _].
Qed.

(** X4. Two phases whose status lookups yield the same record have the same
    identity: no two identities share a status record, on whatever owning
    resources the lookups are made. *)
Theorem GetStatus_one_record_per_identity r r' tcp tcp' i :
  fst (GetStatus r tcp) = Some i →
  fst (GetStatus r' tcp') = Some i →
  Phase r = Phase r'.
Proof. apply GetStatus_address_inj. Qed.

(** X5. The update panics exactly on the identities without a display name,
    returns an error exactly on the identities 3 and 4, and returns nil
    exactly on the declared identities. *)
Theorem UpdateTenantControlPlaneStatus_outcomes r tcp :
  ((∃ e, UpdateTenantControlPlaneStatus r tcp = Panics e) ↔ ¬ (0 ≤ Phase r ≤ 4)) ∧
  ((∃ tcp' log err, UpdateTenantControlPlaneStatus r tcp = Returns (tcp', log, Some err))
     ↔ Phase r = 3 ∨ Phase r = 4) ∧
  ((∃ tcp' log, UpdateTenantControlPlaneStatus r tcp = Returns (tcp', log, None))
     ↔ In (Phase r) declared_phases).
Proof.
  assert (In (Phase r) declared_phases ↔ 0 ≤ Phase r ≤ 2) as Hdecl.
  { unfold declared_phases. simpl.
    unfold PhaseUploadConfigKubeadm, PhaseUploadConfigKubelet, PhaseBootstrapToken. lia. }
  destruct (decide (0 ≤ Phase r ≤ 4)) as [Hrange|Hrange].
  - destruct (decide (In (Phase r) declared_phases)) as [Hin|Hout].
    + destruct (GetStatus_declared r tcp Hin) as [a Ha].
      rewrite (UpdateTenantControlPlaneStatus_declared r tcp a Ha).
      pose proof (proj1 Hdecl Hin) as Hlow. clear Hdecl.
      split; [|split]; (split; [intros H|intros H]).
      * destruct H as [e He]. discriminate He.
      * first [lia|exfalso; lia|exfalso; tauto].
      * destruct H as (? & ? & ? & H). discriminate H.
      * first [lia|exfalso; lia|exfalso; tauto].
      * exact Hin.
      * eauto.
    + assert (UpdateTenantControlPlaneStatus r tcp =
              Returns (tcp,
                [{| log_err := errorString (fmt_verb_s (Phase r) +:+ " is not a right kubeadm phase");
                    log_msg := "unable to update the status";
                    log_keysAndValues :=
                      [("resource", GetName r); ("phase", fmt_verb_s (Phase r))] |}],
                Some (errorString (fmt_verb_s (Phase r) +:+ " is not a right kubeadm phase"))))
        as Hup.
      { unfold UpdateTenantControlPlaneStatus.
        rewrite (GetStatus_undeclared r tcp Hout). unfold fmt_verb_s.
        destruct (kubeadmPhase_String_inside _ Hrange) as (s & Hs & _).
        rewrite Hs. reflexivity. }
      rewrite Hup.
      assert (¬ 0 ≤ Phase r ≤ 2) as Hhigh.
      { intros Hlow. apply Hout. apply (proj2 Hdecl). exact Hlow. }
      clear Hdecl Hup.
      split; [|split]; (split; [intros H|intros H]).
      * destruct H as [e He]. discriminate He.
      * first [lia|exfalso; lia|exfalso; tauto].
      * first [lia|exfalso; lia|exfalso; tauto].
      * eauto.
      * destruct H as (? & ? & H). discriminate H.
      * done.
  - unfold UpdateTenantControlPlaneStatus.
    rewrite (kubeadmPhase_String_outside _ Hrange).
    assert (In (Phase r) declared_phases → False) as Hnot.
    { intros Hin. apply (proj1 Hdecl) in Hin. lia. }
    clear Hdecl.
    split; [|split]; (split; [intros H|intros H]).
    + exact Hrange.
    + eauto.
    + destruct H as (? & ? & ? & H). discriminate H.
    + first [lia|exfalso; lia|exfalso; tauto].
    + destruct H as (? & ? & H). discriminate H.
    + first [lia|exfalso; lia|exfalso; tauto].
Qed.

(** X6. The error of a failed status lookup names the identity: two phases
    whose lookups fail with the same error have the same identity. *)
Theorem GetStatus_error_names_identity r r' tcp tcp' err :
  snd (GetStatus r tcp) = Some err →
  snd (GetStatus r' tcp') = Some err →
  Phase r = Phase r'.
Proof.
  intros H H'.
  destruct (decide (In (Phase r) declared_phases)) as [Hin|Hout].
  { destruct (GetStatus_declared r tcp Hin) as [a Ha]. rewrite Ha in H. discriminate H. }
  destruct (decide (In (Phase r') declared_phases)) as [Hin'|Hout'].
  { destruct (GetStatus_declared r' tcp' Hin') as [a Ha]. rewrite Ha in H'. discriminate H'. }
  rewrite (GetStatus_undeclared r tcp Hout) in H.
  rewrite (GetStatus_undeclared r' tcp' Hout') in H'.
  simpl in H, H'. rewrite <- H in H'. injection H' as H'.
  apply string_app_inv_tail in H'. symmetry. by apply fmt_verb_s_inj.
Qed.

(** X7. The rendering of a phase under the verb of fmt used in this file
    determines its identity, whether it is a display name or the text of
    the recovered index panic. *)
Theorem phase_rendering_determines_identity (d d' : kubeadmPhase) :
  fmt_verb_s d = fmt_verb_s d' ↔ d = d'.
Proof. split; [apply fmt_verb_s_inj|by intros ->]. Qed.

(** ** Bootstrap token enrichment *)

Section EnrichmentFrame.

Context {World : Type} (utils_RandomString : Z → World → string * World).

#[local] Abbreviation enrich := (enrichBootstrapToken utils_RandomString).
#[local] Abbreviation enrich_all := (bootstrapTokensEnrichment utils_RandomString).
#[local] Abbreviation new_ID := (generated_ID utils_RandomString).
#[local] Abbreviation next_world := (world_after utils_RandomString).

Lemma enrich_dangling (s : State World) b (l : loc) :
  Token b = Some l → heap s !! l = None → enrich b s = Panics nilDereference.
Proof.
  intros Hl Ht.
  unfold enrichBootstrapToken, deref, mbind, M_bind, mret, M_ret.
  rewrite Hl. simpl. by rewrite Hl, Ht.
Qed.

(** The three ways in which the enrichment of a record returns. *)
Lemma enrich_inv (s : State World) b b' s' :
  enrich b s = Returns (b', s') →
  (∃ (l : loc) t, Token b = Some l ∧ heap s !! l = Some t ∧ ID t ≠ "" ∧ b' = b ∧ s' = s) ∨
  (∃ (l : loc) t, Token b = Some l ∧ heap s !! l = Some t ∧ ID t = "" ∧ b' = b ∧
     s' = {| heap := <[l := set_ID (new_ID (world s)) t]> (heap s);
             world := next_world (world s) |}) ∨
  (Token b = None ∧ b' = set_Token (Some (length (heap s))) b ∧
     s' = {| heap := heap s ++ [{| ID := new_ID (world s); Secret := "" |}];
             world := next_world (world s) |}).
Proof.
  intros He. destruct (Token b) as [l|] eqn:Hl.
  - destruct (heap s !! l) as [t|] eqn:Ht.
    + destruct (decide (ID t = "")) as [Hid|Hid].
      * rewrite (enrich_blank utils_RandomString s b l t Hl Ht Hid) in He.
        injection He as <- <-. right. left. by exists l, t.
      * rewrite (enrich_populated utils_RandomString s b l t Hl Ht Hid) in He.
        injection He as <- <-. left. by exists l, t.
    + rewrite (enrich_dangling s b l Hl Ht) in He. discriminate He.
  - rewrite (enrich_nil utils_RandomString s b Hl) in He.
    injection He as <- <-. right. right. done.
Qed.

Lemma enrich_all_inv (s : State World) l l' s' :
  enrich_all l s = Returns (l', s') →
  ∃ b rest b', l = b :: rest ∧ l' = b' :: rest ∧ enrich b s = Returns (b', s').
Proof.
  destruct l as [|b rest].
  - rewrite enrich_all_empty. discriminate.
  - rewrite bootstrapTokensEnrichment_slot_zero.
    destruct (enrich b s) as [[b' s1]|e] eqn:He; [|discriminate].
    intros [= <- <-]. by exists b, rest, b'.
Qed.

(** X8. The enrichment of a record touches no other token string: every
    record that does not point to the token string of the enriched record
    has the identifier and the secret it had before. *)
Theorem enrichment_leaves_other_tokens (s : State World) b b' s' b2 :
  enrich b s = Returns (b', s') →
  Token b2 ≠ Token b' →
  token_ID s' b2 = token_ID s b2 ∧ token_Secret s' b2 = token_Secret s b2.
Proof.
  intros He Hne. unfold token_ID, token_Secret.
  destruct (Token b2) as [l2|] eqn:Hl2; [|done].
  destruct (enrich_inv s b b' s' He)
    as [(l & t & Hl & Ht & Hid & -> & ->)
       |[(l & t & Hl & Ht & Hid & -> & ->)|(Hl & -> & ->)]].
  - done.
  - simpl. rewrite list_lookup_insert_ne; [done|].
    intros ->. apply Hne. by rewrite Hl.
  - simpl in *.
    destruct (decide (l2 < length (heap s))%nat) as [Hlt|Hge].
    + by rewrite lookup_app_l.
    + assert (length (heap s) < l2)%nat as Hgt.
      { destruct (decide (l2 = length (heap s))) as [->|]; [done|lia]. }
      rewrite lookup_ge_None_2 by (rewrite length_app; simpl; lia).
      by rewrite lookup_ge_None_2 by lia.
Qed.

(** X9. When the enrichment of a list returns, the list has the length it
    had, every slot but the first holds the record it held, and the first
    record differs from the one it was at most in its token pointer, which
    is replaced only when it was nil. *)
Theorem enrichment_rewrites_first_slot_only (s : State World) l l' s' :
  enrich_all l s = Returns (l', s') →
  length l' = length l ∧
  (∀ i, (0 < i)%nat → l' !! i = l !! i) ∧
  ∃ b b',
    l !! 0%nat = Some b ∧ l' !! 0%nat = Some b' ∧
    b' = set_Token (Token b') b ∧
    (Token b ≠ None → b' = b).
Proof.
  intros H. destruct (enrich_all_inv s l l' s' H) as (b & rest & b' & -> & -> & He).
  split; [reflexivity|]. split.
  - intros [|i] Hi; [lia|reflexivity].
  - exists b, b'. split; [reflexivity|]. split; [reflexivity|].
    destruct (enrich_inv s b b' s' He)
      as [(l & t & Hl & _ & _ & -> & _)
         |[(l & t & Hl & _ & _ & -> & _)|(Hl & -> & _)]].
    + split; [by destruct b|done].
    + split; [by destruct b|done].
    + split; [reflexivity|]. by rewrite Hl.
Qed.

(** X10. Whenever the enrichment of a list returns, the list is non-empty
    and its first record has a non-empty identifier. *)
Theorem enrichment_result_populated (s : State World) l l' s' :
  enrich_all l s = Returns (l', s') →
  ∃ b' rest, l' = b' :: rest ∧ token_ID s' b' ≠ "".
Proof.
  intros H. destruct (enrich_all_inv s l l' s' H) as (b & rest & b' & -> & -> & He).
  exists b', rest. split; [reflexivity|].
  unfold token_ID.
  destruct (enrich_inv s b b' s' He)
    as [(l & t & Hl & Ht & Hid & -> & ->)
       |[(l & t & Hl & Ht & Hid & -> & ->)|(Hl & -> & ->)]].
  - by rewrite Hl, Ht.
  - rewrite Hl. simpl.
    rewrite list_lookup_insert_eq by (by eapply lookup_lt_Some). simpl.
    apply generated_ID_nonempty.
  - simpl. rewrite lookup_app_r, Nat.sub_diag by lia. simpl.
    apply generated_ID_nonempty.
Qed.

(** X11. The enrichment is idempotent: on the list and in the state a first
    enrichment leaves, a second one returns the same list in the same
    state; it draws no random string and allocates nothing. *)
Theorem enrichment_idempotent (s : State World) l l' s' :
  enrich_all l s = Returns (l', s') →
  enrich_all l' s' = Returns (l', s').
Proof. apply bootstrapTokensEnrichment_twice. Qed.

(** X12. The enrichment of a list returns exactly when the list is
    non-empty and the token pointer of its first record is nil or
    allocated. *)
Theorem enrichment_returns_iff (s : State World) l :
  (∃ l' s', enrich_all l s = Returns (l', s')) ↔
  ∃ b rest, l = b :: rest ∧ valid s b.
Proof.
  split.
  - intros (l' & s' & H).
    destruct (enrich_all_inv s l l' s' H) as (b & rest & b' & -> & -> & He).
    exists b, rest. split; [reflexivity|]. unfold valid.
    destruct (enrich_inv s b b' s' He)
      as [(l & t & Hl & Ht & _)|[(l & t & Hl & Ht & _)|(Hl & _)]];
      rewrite Hl; first [by eapply lookup_lt_Some|done].
  - intros (b & rest & -> & Hv).
    destruct (enrich_returns utils_RandomString s b Hv) as (b' & s' & He & _).
    exists (b' :: rest), s'.
    by rewrite bootstrapTokensEnrichment_slot_zero, He.
Qed.

(** X13. When the identifier of a record is empty and the two random
    strings drawn have the six and the sixteen characters asked for, the
    identifier after the enrichment is the first string, a dot and the
    second string: 23 characters, with the dot at index 6. *)
Theorem generated_identifier_shape (s : State World) b b' s' :
  enrich b s = Returns (b', s') →
  token_ID s b = "" →
  String.length (fst (utils_RandomString 6 (world s))) = 6%nat →
  String.length
    (fst (utils_RandomString 16 (snd (utils_RandomString 6 (world s))))) = 16%nat →
  token_ID s' b' =
    fst (utils_RandomString 6 (world s)) +:+ "." +:+
    fst (utils_RandomString 16 (snd (utils_RandomString 6 (world s)))) ∧
  String.length (token_ID s' b') = 23%nat ∧
  String.get 6 (token_ID s' b') = Some "."%char.
Proof.
  intros He Hempty Ha Hc.
  assert (token_ID s' b' = new_ID (world s)) as Hid.
  { unfold token_ID in *.
    destruct (enrich_inv s b b' s' He)
      as [(l & t & Hl & Ht & Hid & -> & ->)
         |[(l & t & Hl & Ht & Hid & -> & ->)|(Hl & -> & ->)]].
    - rewrite Hl, Ht in Hempty. done.
    - rewrite Hl. simpl.
      by rewrite list_lookup_insert_eq by (by eapply lookup_lt_Some).
    - simpl. by rewrite lookup_app_r, Nat.sub_diag by lia. }
  rewrite Hid. unfold generated_ID.
  destruct (utils_RandomString 6 (world s)) as [a w1]. simpl in *.
  destruct (utils_RandomString 16 w1) as [c w2]. simpl in *.
  split; [reflexivity|]. split.
  - rewrite !string_app_length, Ha, Hc. reflexivity.
  - rewrite <- Ha at 1.
    change (String.length a) with (0 + String.length a)%nat.
    rewrite <- String.append_correct2. reflexivity.
Qed.

End EnrichmentFrame.

(** ** Dispatch and creation *)

Section DispatchEdges.

Context {World : Type} (utils_RandomString : Z → World → string * World).
Context (kubeadm_UploadKubeadmConfig kubeadm_UploadKubeletConfig : kubeadmFunction World).
Context (kubeadm_BootstrapToken :
  clientset_Interface → Configuration → M World (Configuration * option error)).

#[local] Abbreviation resolve :=
  (GetKubeadmFunction utils_RandomString kubeadm_UploadKubeadmConfig
     kubeadm_UploadKubeletConfig kubeadm_BootstrapToken).

(** X14. The dispatcher and the status lookup support the same identities:
    each of them fails exactly outside the declared enumeration, and the
    dispatcher returns a function exactly when it returns no error. *)
Theorem dispatch_and_lookup_agree r tcp :
  (snd (resolve r) = None ↔ In (Phase r) declared_phases) ∧
  (snd (GetStatus r tcp) = None ↔ In (Phase r) declared_phases) ∧
  (is_Some (fst (resolve r)) ↔ snd (resolve r) = None) ∧
  (is_Some (fst (GetStatus r tcp)) ↔ snd (GetStatus r tcp) = None).
Proof.
  destruct (decide (In (Phase r) declared_phases)) as [Hin|Hout].
  - destruct (GetStatus_declared r tcp Hin) as [a Ha]. rewrite Ha. simpl.
    pose proof (GetKubeadmFunction_declared utils_RandomString
      kubeadm_UploadKubeadmConfig kubeadm_UploadKubeletConfig
      kubeadm_BootstrapToken r Hin) as Hr.
    assert (is_Some (fst (resolve r))) as Hf.
    { revert Hin. unfold declared_phases, GetKubeadmFunction. simpl.
      intros [H|[H|[H|[]]]]; rewrite <- H; simpl; by eexists. }
    rewrite Hr. repeat split; try done; by eexists.
  - rewrite (GetStatus_undeclared r tcp Hout).
    rewrite (GetKubeadmFunction_undeclared utils_RandomString
      kubeadm_UploadKubeadmConfig kubeadm_UploadKubeletConfig
      kubeadm_BootstrapToken r Hout). simpl.
    repeat split; try done; intros H; first [discriminate H|by destruct H].
Qed.

(** X15. The function resolved for PhaseBootstrapToken panics with an index
    error on a configuration without bootstrap tokens, whatever the token
    routine of package kubeadm does: that routine is not reached. *)
Theorem bootstrap_function_panics_without_tokens r f client config s :
  Phase r = PhaseBootstrapToken →
  resolve r = (Some f, None) →
  BootstrapTokens (InitConfiguration config) = [] →
  f client config s = Panics (boundsError 0 0).
Proof.
  intros Hphase Hf Htokens.
  unfold GetKubeadmFunction in Hf. rewrite Hphase in Hf. simpl in Hf.
  injection Hf as <-.
  unfold mbind, M_bind. rewrite Htokens.
  by rewrite (enrich_all_empty utils_RandomString s).
Qed.

(** X16. On a configuration whose token list starts with a valid record,
    the function resolved for PhaseBootstrapToken hands to the token
    routine of package kubeadm a configuration whose first token has a
    non-empty identifier, and returns what that routine returns, with the
    nil payload. *)
Theorem bootstrap_function_delegates_enriched r f client config s b rest :
  Phase r = PhaseBootstrapToken →
  resolve r = (Some f, None) →
  BootstrapTokens (InitConfiguration config) = b :: rest →
  valid s b →
  ∃ b' s1,
    token_ID s1 b' ≠ "" ∧
    f client config s =
      match kubeadm_BootstrapToken client (set_BootstrapTokens (b' :: rest) config) s1 with
      | Panics e => Panics e
      | Returns (config', err, s2) => Returns (config', (None, err), s2)
      end.
Proof.
  intros Hphase Hf Htokens Hv.
  unfold GetKubeadmFunction in Hf. rewrite Hphase in Hf. simpl in Hf.
  injection Hf as <-.
  destruct (enrich_returns utils_RandomString s b Hv) as (b' & s1 & He & Hne & _).
  exists b', s1. split; [exact Hne|].
  unfold mbind, M_bind, mret, M_ret.
  rewrite Htokens, bootstrapTokensEnrichment_slot_zero, He.
  destruct (kubeadm_BootstrapToken client _ s1) as [[[config' err] s2]|e]; reflexivity.
Qed.

End DispatchEdges.

Section CreationProperties.

Context {World : Type}.
Context (KubeadmPhaseCreate :
  KubeadmPhase → list (string * string) → TenantControlPlane →
  M World (TenantControlPlane * (OperationResult * option error))).

(** X17. CreateOrUpdate panics with an index error on every identity
    without a display name, before the creation routine is reached; on the
    identities 0 to 4, declared or not, it is the creation routine, called
    with a logger that carries the resource name and the display name. *)
Theorem CreateOrUpdate_by_display_name r tcp (s : State World) :
  (¬ (0 ≤ Phase r ≤ 4) →
   CreateOrUpdate KubeadmPhaseCreate r tcp s = Panics (boundsError (Phase r) 5)) ∧
  (0 ≤ Phase r ≤ 4 →
   ∃ name,
     display_names !! Z.to_nat (Phase r) = Some name ∧
     CreateOrUpdate KubeadmPhaseCreate r tcp s =
       KubeadmPhaseCreate r [("resource", Name r); ("phase", name)] tcp s).
Proof.
  unfold CreateOrUpdate. split.
  - intros Hout. by rewrite (kubeadmPhase_String_outside _ Hout).
  - intros Hin. destruct (kubeadmPhase_String_inside _ Hin) as (name & Hs & Hn).
    exists name. split; [exact Hn|]. by rewrite Hs.
Qed.

End CreationProperties.

(** ** Witnesses of the further properties *)

Lemma drift_detected_after_update_witness :
  In (Phase (sample_phase 2 "abc123")) declared_phases ∧
  Phase (sample_phase 2 "def456") = Phase (sample_phase 2 "abc123") ∧
  UpdateTenantControlPlaneStatus (sample_phase 2 "abc123") (sample_tcp "" "" "")
    = Returns (sample_tcp "" "" "abc123", [], None) ∧
  (ShouldStatusBeUpdated (sample_phase 2 "def456") (sample_tcp "" "" "abc123") = true
   ↔ checksum (sample_phase 2 "def456") ≠ checksum (sample_phase 2 "abc123")).
Proof.
  split; [vm_compute; lia|]. split; [reflexivity|]. split; [reflexivity|].
  apply (drift_detected_after_update (sample_phase 2 "abc123") (sample_phase 2 "def456")
           (sample_tcp "" "" "") (sample_tcp "" "" "abc123") []);
    [vm_compute; lia|reflexivity|reflexivity].
Defined.

Lemma update_leaves_other_phases_witness :
  UpdateTenantControlPlaneStatus (sample_phase 2 "abc123") (sample_tcp "" "" "")
    = Returns (sample_tcp "" "" "abc123", [], None) ∧
  Phase (sample_phase 0 "abc123") ≠ Phase (sample_phase 2 "abc123") ∧
  ShouldStatusBeUpdated (sample_phase 0 "abc123") (sample_tcp "" "" "abc123")
    = ShouldStatusBeUpdated (sample_phase 0 "abc123") (sample_tcp "" "" "").
Proof.
  split; [reflexivity|]. split; [simpl; lia|].
  apply (update_leaves_other_phases (sample_phase 2 "abc123") (sample_phase 0 "abc123")
           (sample_tcp "" "" "") (sample_tcp "" "" "abc123") [] None);
    [reflexivity|simpl; lia].
Defined.

Lemma GetStatus_one_record_per_identity_witness :
  fst (GetStatus (sample_phase 1 "abc123") (sample_tcp "" "" ""))
    = Some (ptr_KubeadmPhaseStatus addr_UploadConfigKubelet) ∧
  fst (GetStatus (sample_phase 1 "def456") (sample_tcp "x" "y" "z"))
    = Some (ptr_KubeadmPhaseStatus addr_UploadConfigKubelet) ∧
  Phase (sample_phase 1 "abc123") = Phase (sample_phase 1 "def456").
Proof.
  split; [reflexivity|]. split; [reflexivity|].
  apply (GetStatus_one_record_per_identity (sample_phase 1 "abc123")
           (sample_phase 1 "def456") (sample_tcp "" "" "") (sample_tcp "x" "y" "z")
           (ptr_KubeadmPhaseStatus addr_UploadConfigKubelet));
    reflexivity.
Defined.

Lemma GetStatus_error_names_identity_witness :
  snd (GetStatus (sample_phase (-1) "abc123") (sample_tcp "" "" ""))
    = Some (errorString
        "%!s(PANIC=String method: runtime error: index out of range [-1]) is not a right kubeadm phase") ∧
  snd (GetStatus (sample_phase (-1) "def456") (sample_tcp "x" "y" "z"))
    = Some (errorString
        "%!s(PANIC=String method: runtime error: index out of range [-1]) is not a right kubeadm phase") ∧
  Phase (sample_phase (-1) "abc123") = Phase (sample_phase (-1) "def456").
Proof.
  split; [reflexivity|]. split; [reflexivity|].
  apply (GetStatus_error_names_identity (sample_phase (-1) "abc123")
           (sample_phase (-1) "def456") (sample_tcp "" "" "") (sample_tcp "x" "y" "z")
           (errorString
        "%!s(PANIC=String method: runtime error: index out of range [-1]) is not a right kubeadm phase"));
    reflexivity.
Defined.

Lemma enrichment_leaves_other_tokens_witness :
  enrichBootstrapToken counting_RandomString zero_BootstrapToken
      (sample_state "keep.me" "s3cr3t")
    = Returns (sample_token_fresh, sample_state_enriched) ∧
  Token sample_token ≠ Token sample_token_fresh ∧
  token_ID sample_state_enriched sample_token
    = token_ID (sample_state "keep.me" "s3cr3t") sample_token ∧
  token_Secret sample_state_enriched sample_token
    = token_Secret (sample_state "keep.me" "s3cr3t") sample_token.
Proof.
  split; [reflexivity|]. split; [discriminate|].
  apply (enrichment_leaves_other_tokens counting_RandomString
           (sample_state "keep.me" "s3cr3t") zero_BootstrapToken
           sample_token_fresh sample_state_enriched sample_token);
    [reflexivity|discriminate].
Defined.

Lemma enrichment_rewrites_first_slot_only_witness :
  bootstrapTokensEnrichment counting_RandomString [zero_BootstrapToken; sample_token]
      (sample_state "keep.me" "s3cr3t")
    = Returns ([sample_token_fresh; sample_token], sample_state_enriched) ∧
  length [sample_token_fresh; sample_token] = length [zero_BootstrapToken; sample_token] ∧
  (∀ i, (0 < i)%nat →
     [sample_token_fresh; sample_token] !! i = [zero_BootstrapToken; sample_token] !! i) ∧
  ∃ b b',
    [zero_BootstrapToken; sample_token] !! 0%nat = Some b ∧
    [sample_token_fresh; sample_token] !! 0%nat = Some b' ∧
    b' = set_Token (Token b') b ∧
    (Token b ≠ None → b' = b).
Proof.
  split; [reflexivity|].
  apply (enrichment_rewrites_first_slot_only counting_RandomString
           (sample_state "keep.me" "s3cr3t") [zero_BootstrapToken; sample_token]
           [sample_token_fresh; sample_token] sample_state_enriched).
  reflexivity.
Defined.

Lemma enrichment_result_populated_witness :
  bootstrapTokensEnrichment counting_RandomString [zero_BootstrapToken; sample_token]
      (sample_state "keep.me" "s3cr3t")
    = Returns ([sample_token_fresh; sample_token], sample_state_enriched) ∧
  ∃ b' rest,
    [sample_token_fresh; sample_token] = b' :: rest ∧
    token_ID sample_state_enriched b' ≠ "".
Proof.
  split; [reflexivity|].
  apply (enrichment_result_populated counting_RandomString
           (sample_state "keep.me" "s3cr3t") [zero_BootstrapToken; sample_token]
           [sample_token_fresh; sample_token] sample_state_enriched).
  reflexivity.
Defined.

Lemma enrichment_idempotent_witness :
  bootstrapTokensEnrichment counting_RandomString [zero_BootstrapToken; sample_token]
      (sample_state "keep.me" "s3cr3t")
    = Returns ([sample_token_fresh; sample_token], sample_state_enriched) ∧
  bootstrapTokensEnrichment counting_RandomString [sample_token_fresh; sample_token]
      sample_state_enriched
    = Returns ([sample_token_fresh; sample_token], sample_state_enriched).
Proof.
  split; [reflexivity|].
  apply (enrichment_idempotent counting_RandomString
           (sample_state "keep.me" "s3cr3t") [zero_BootstrapToken; sample_token]
           [sample_token_fresh; sample_token] sample_state_enriched).
  reflexivity.
Defined.

Lemma generated_identifier_shape_witness :
  enrichBootstrapToken counting_RandomString zero_BootstrapToken
      (sample_state "keep.me" "s3cr3t")
    = Returns (sample_token_fresh, sample_state_enriched) ∧
  token_ID (sample_state "keep.me" "s3cr3t") zero_BootstrapToken = "" ∧
  String.length (fst (counting_RandomString 6 0%nat)) = 6%nat ∧
  String.length (fst (counting_RandomString 16 1%nat)) = 16%nat ∧
  token_ID sample_state_enriched sample_token_fresh = "000000.1111111111111111" ∧
  String.length (token_ID sample_state_enriched sample_token_fresh) = 23%nat ∧
  String.get 6 (token_ID sample_state_enriched sample_token_fresh) = Some "."%char.
Proof.
  split; [reflexivity|]. split; [reflexivity|].
  split; [reflexivity|]. split; [reflexivity|].
  apply (generated_identifier_shape counting_RandomString
           (sample_state "keep.me" "s3cr3t") zero_BootstrapToken
           sample_token_fresh sample_state_enriched);
    reflexivity.
Defined.

Lemma bootstrap_function_panics_without_tokens_witness :
  Phase (sample_phase PhaseBootstrapToken "abc123") = PhaseBootstrapToken ∧
  GetKubeadmFunction counting_RandomString (inert_Upload []) (inert_Upload [])
      inert_BootstrapToken (sample_phase PhaseBootstrapToken "abc123")
    = (Some sample_bootstrap_function, None) ∧
  BootstrapTokens (InitConfiguration (sample_config [])) = [] ∧
  sample_bootstrap_function (ClientsetHandle 0) (sample_config [])
      (sample_state "keep.me" "s3cr3t")
    = Panics (boundsError 0 0).
Proof.
  split; [reflexivity|]. split; [reflexivity|]. split; [reflexivity|].
  apply (bootstrap_function_panics_without_tokens counting_RandomString
           (inert_Upload []) (inert_Upload []) inert_BootstrapToken
           (sample_phase PhaseBootstrapToken "abc123") sample_bootstrap_function
           (ClientsetHandle 0) (sample_config []) (sample_state "keep.me" "s3cr3t"));
    reflexivity.
Defined.

Lemma bootstrap_function_delegates_enriched_witness :
  Phase (sample_phase PhaseBootstrapToken "abc123") = PhaseBootstrapToken ∧
  GetKubeadmFunction counting_RandomString (inert_Upload []) (inert_Upload [])
      inert_BootstrapToken (sample_phase PhaseBootstrapToken "abc123")
    = (Some sample_bootstrap_function, None) ∧
  BootstrapTokens (InitConfiguration (sample_config [zero_BootstrapToken; sample_token]))
    = zero_BootstrapToken :: [sample_token] ∧
  valid (sample_state "keep.me" "s3cr3t") zero_BootstrapToken ∧
  ∃ b' s1,
    token_ID s1 b' ≠ "" ∧
    sample_bootstrap_function (ClientsetHandle 0)
        (sample_config [zero_BootstrapToken; sample_token])
        (sample_state "keep.me" "s3cr3t") =
      match inert_BootstrapToken (ClientsetHandle 0)
              (set_BootstrapTokens (b' :: [sample_token])
                 (sample_config [zero_BootstrapToken; sample_token])) s1 with
      | Panics e => Panics e
      | Returns (config', err, s2) => Returns (config', (None, err), s2)
      end.
Proof.
  split; [reflexivity|]. split; [reflexivity|]. split; [reflexivity|].
  split; [vm_compute; exact I|].
  apply (bootstrap_function_delegates_enriched counting_RandomString
           (inert_Upload []) (inert_Upload []) inert_BootstrapToken
           (sample_phase PhaseBootstrapToken "abc123") sample_bootstrap_function
           (ClientsetHandle 0) (sample_config [zero_BootstrapToken; sample_token])
           (sample_state "keep.me" "s3cr3t") zero_BootstrapToken [sample_token]);
    first [reflexivity|vm_compute; exact I].
Defined.
